(** * ProseMirror mock code block: indentation commands

    A shallow embedding of [src/main.ts]: the two string helpers
    [getIndentText] and [getExistingIndent], the settings store with its
    two input listeners, the two editor commands [tabCommand] and
    [enterCommand], and the keymap [baseKeymapMinusEnter].

    The JavaScript built-ins the file calls ([String.prototype.search],
    [slice], [repeat], the [||] operator, object spread and property
    assignment) follow ECMAScript; the editing
    framework (states, transactions, the four base commands) is an interface
    the commands are written against. *)

From Stdlib Require Import List ZArith Bool Lia.
From Stdlib Require Import SpecFloat.
Import ListNotations.

Local Open Scope Z_scope.

(* ================================================================== *)
(** ** JavaScript values *)
(* ================================================================== *)

Module JS.

(** A string is a sequence of UTF-16 code units. *)
Definition char16 := N.
Definition jsstring := list char16.

(** A number is an IEEE 754 binary64 value; [spec_float] keeps NaN, the two
    infinities and the two zeros apart, as the language does. *)
Definition number := spec_float.

Definition prec : Z := 53.
Definition emax : Z := 1024.

(** The numbers of the language are the well-formed binary64 values. *)
Definition is_number (x : number) : bool := valid_binary prec emax x.

Inductive Error := RangeError.

(** Completion of a call: a value, or a thrown error. *)
Inductive completion (A : Type) :=
| Normal (a : A)
| Throw (e : Error).
Arguments Normal {A} a.
Arguments Throw {A} e.

Definition TAB : char16 := 9%N.
Definition SPACE : char16 := 32%N.

(** The class [\s] of a regular expression: WhiteSpace and LineTerminator
    code points. [\S] is its complement. *)
Definition isWhiteSpace (c : char16) : bool :=
  ((9 <=? c) && (c <=? 13))%N          (* TAB LF VT FF CR *)
  || (c =? 32)%N                        (* SPACE *)
  || (c =? 160)%N                       (* NO-BREAK SPACE *)
  || (c =? 5760)%N                      (* OGHAM SPACE MARK *)
  || ((8192 <=? c) && (c <=? 8202))%N   (* EN QUAD .. HAIR SPACE *)
  || (c =? 8232)%N || (c =? 8233)%N     (* LINE / PARAGRAPH SEPARATOR *)
  || (c =? 8239)%N                      (* NARROW NO-BREAK SPACE *)
  || (c =? 8287)%N                      (* MEDIUM MATHEMATICAL SPACE *)
  || (c =? 12288)%N                     (* IDEOGRAPHIC SPACE *)
  || (c =? 65279)%N.                    (* ZERO WIDTH NO-BREAK SPACE *)

(** [s.search(/\S/)] scanning from index [i]: the index of the first code
    unit outside [\s], or [-1]. *)
Fixpoint search_from (s : jsstring) (i : Z) : Z :=
  match s with
  | [] => -1
  | c :: rest => if isWhiteSpace c then search_from rest (i + 1) else i
  end.

Definition search_nonspace (s : jsstring) : Z := search_from s 0.

(** [s.substring] on positions already clamped to [0 .. length]. *)
Definition substring (s : jsstring) (from to : Z) : jsstring :=
  firstn (Z.to_nat (to - from)) (skipn (Z.to_nat from) s).

(** [s.slice(start, end)] on integer arguments: a negative position counts
    from the end of the string, and both are clamped to [0 .. length]. *)
Definition slice (s : jsstring) (start stop : Z) : jsstring :=
  let len := Z.of_nat (length s) in
  let from := if start <? 0 then Z.max (len + start) 0 else Z.min start len in
  let to := if stop <? 0 then Z.max (len + stop) 0 else Z.min stop len in
  if from >=? to then [] else substring s from to.

(** Integer part of a number, as [ToIntegerOrInfinity] computes it. *)
Inductive integerOrInfinity :=
| Int (z : Z)
| PlusInfinity
| MinusInfinity.

Definition sign (s : bool) : Z := if s then -1 else 1.

(** The magnitude [m * 2^e] truncated toward zero. *)
Definition truncate (m : positive) (e : Z) : Z :=
  if 0 <=? e then Z.pos m * 2 ^ e else Z.pos m / 2 ^ (- e).

Definition ToIntegerOrInfinity (x : number) : integerOrInfinity :=
  match x with
  | S754_nan => Int 0
  | S754_zero _ => Int 0
  | S754_infinity false => PlusInfinity
  | S754_infinity true => MinusInfinity
  | S754_finite s m e => Int (sign s * truncate m e)
  end.

Fixpoint copies (n : nat) (s : jsstring) : jsstring :=
  match n with
  | O => []
  | S k => s ++ copies k s
  end.

(** The longest string the engine makes. ECMAScript bounds the length of a
    string by [2^53 - 1] and leaves the limit to the implementation. *)
Class Engine := {
  maxStringLength : Z;
  maxStringLength_nonneg : 0 <= maxStringLength;
  maxStringLength_bound : maxStringLength <= 2 ^ 53 - 1;
}.

(** V8 on a 64-bit platform: [2^29 - 24]. *)
Definition V8 : Engine :=
  {| maxStringLength := 536870888;
     maxStringLength_nonneg := proj1 (Z.leb_le 0 536870888) eq_refl;
     maxStringLength_bound := proj1 (Z.leb_le 536870888 (2 ^ 53 - 1)) eq_refl |}.

(** [s.repeat(count)]: a RangeError for a negative or infinite count, the
    empty string for the count 0, and a RangeError again when the result
    would be longer than the engine's strings can be. *)
Definition repeat {E : Engine} (s : jsstring) (count : number) : completion jsstring :=
  match ToIntegerOrInfinity count with
  | Int n =>
      if n <? 0 then Throw RangeError
      else if n =? 0 then Normal []
      else if maxStringLength <? n * Z.of_nat (length s) then Throw RangeError
      else Normal (copies (Z.to_nat n) s)
  | PlusInfinity => Throw RangeError
  | MinusInfinity => Throw RangeError
  end.

(** [ToBoolean] on a number: NaN and the zeros are false. *)
Definition truthy (x : number) : bool :=
  match x with
  | S754_nan => false
  | S754_zero _ => false
  | _ => true
  end.

(** [a || b] on numbers. *)
Definition or_else (a b : number) : number := if truthy a then a else b.

Definition isNaN (x : number) : bool :=
  match x with
  | S754_nan => true
  | _ => false
  end.

Definition isZero (x : number) : bool :=
  match x with
  | S754_zero _ => true
  | _ => false
  end.

(** The literals of the source. *)
Definition zero : number := S754_zero false.
Definition four : number := S754_finite false 4503599627370496 (-50).
Definition minus_one : number := S754_finite true 4503599627370496 (-52).
Definition minus_half : number := S754_finite true 4503599627370496 (-53).
Definition two_pow_30 : number := S754_finite false 4503599627370496 (-22).
Definition two_pow_53 : number := S754_finite false 4503599627370496 1.
Definition one_billion : number := S754_finite false 8388608000000000 (-23).

(** [x] is the integer [n]: a zero, or a finite [(-1)^s * m * 2^e] equal to
    [n]. *)
Definition represents (x : number) (n : Z) : Prop :=
  match x with
  | S754_zero _ => n = 0
  | S754_finite s m e =>
      if 0 <=? e then n = sign s * (Z.pos m * 2 ^ e)
      else sign s * Z.pos m = n * 2 ^ (- e)
  | _ => False
  end.

(** [-1 < x < 1]: a zero, or a finite value whose magnitude is below one. *)
Definition magnitude_below_one (x : number) : Prop :=
  match x with
  | S754_zero _ => True
  | S754_finite _ m e => e < 0 /\ Z.pos m < 2 ^ (- e)
  | _ => False
  end.

(** [x <= -1], or [x] is an infinity, or [x >= maxStringLength + 1]: the
    counts for which [repeat] on a string of one code unit throws. *)
Definition invalidCount {E : Engine} (x : number) : bool :=
  match x with
  | S754_infinity _ => true
  | S754_finite true m e => (0 <=? e) || (2 ^ (- e) <=? Z.pos m)
  | S754_finite false m e =>
      if 0 <=? e then maxStringLength <? Z.pos m * 2 ^ e
      else (maxStringLength + 1) * 2 ^ (- e) <=? Z.pos m
  | _ => false
  end.

(** [n <= x < n + 1] for a number [x >= 0]. *)
Definition integer_part (x : number) (n : Z) : Prop :=
  match x with
  | S754_zero _ => n = 0
  | S754_finite false m e =>
      if 0 <=? e then n = Z.pos m * 2 ^ e
      else n * 2 ^ (- e) <= Z.pos m < (n + 1) * 2 ^ (- e)
  | _ => False
  end.

Definition two_and_a_half : number := S754_finite false 5629499534213120 (-51).

(** Property keys are strings; an object is its own enumerable properties
    in the order they were created. *)
Definition object (V : Type) := list (jsstring * V).

Definition key_eq_dec : forall a b : jsstring, {a = b} + {a <> b} :=
  list_eq_dec N.eq_dec.

(** [o[k]] *)
Fixpoint get {V} (k : jsstring) (o : object V) : option V :=
  match o with
  | [] => None
  | (k', v) :: rest => if key_eq_dec k k' then Some v else get k rest
  end.

(** [o[k] = v]: an existing property keeps its place, a new one goes last. *)
Fixpoint set {V} (k : jsstring) (v : V) (o : object V) : object V :=
  match o with
  | [] => [(k, v)]
  | (k', v') :: rest =>
      if key_eq_dec k k' then (k', v) :: rest else (k', v') :: set k v rest
  end.

(** [{...o}]: the properties of [o], created in the same order on a new
    object. *)
Definition spread {V} (o : object V) : object V :=
  fold_left (fun copy kv => set (fst kv) (snd kv) copy) o [].

Definition keys {V} (o : object V) : list jsstring := map fst o.

End JS.

Import JS.

(* ================================================================== *)
(** ** The string helpers of main.ts *)
(* ================================================================== *)

(** [function getIndentText(useTab, spaceCount)] *)
Definition getIndentText {E : Engine} (useTab : bool) (spaceCount : number)
    : completion jsstring :=
  if useTab then Normal [TAB]
  else JS.repeat [SPACE] spaceCount.

(** [function getExistingIndent(line)] *)
Definition getExistingIndent (line : jsstring) : jsstring :=
  slice line 0 (search_nonspace line).

(** The leading whitespace of a line in the words of its documentation: the
    prefix before the first non-whitespace code unit, the whole line when
    there is none. *)
Fixpoint leadingWhitespace (line : jsstring) : jsstring :=
  match line with
  | [] => []
  | c :: rest => if isWhiteSpace c then c :: leadingWhitespace rest else []
  end.

(* ================================================================== *)
(** ** The settings store *)
(* ================================================================== *)

(** [interface IndentSettings] *)
Record IndentSettings := {
  useTab : bool;
  spaceCount : number;
}.

(** [const settings: IndentSettings = { spaceCount: 4, useTab: false }] *)
Definition defaultSettings : IndentSettings :=
  {| useTab := false; spaceCount := four |}.

(** The listener of the space-count input:
    [settings.spaceCount = spaceInput.valueAsNumber || 0]. *)
Definition onSpaceInput (valueAsNumber : number) (s : IndentSettings) : IndentSettings :=
  {| useTab := useTab s; spaceCount := or_else valueAsNumber zero |}.

(** The listener of the use-tab checkbox:
    [settings.useTab = tabCheckbox.checked]. *)
Definition onTabInput (checked : bool) (s : IndentSettings) : IndentSettings :=
  {| useTab := checked; spaceCount := spaceCount s |}.

(** What [document.getElementById] found, as far as
    [instanceof HTMLInputElement] tells. *)
Inductive Element :=
| HTMLInputElement
| OtherElement.

(** [const spaceInput = document.getElementById("space-count")] and
    [const tabCheckbox = document.getElementById("use-tab")]; [None] is
    [null]. *)
Record Page := {
  spaceInput : option Element;
  tabCheckbox : option Element;
}.

(** [e instanceof HTMLInputElement] *)
Definition isInput (e : option Element) : bool :=
  match e with
  | Some HTMLInputElement => true
  | _ => false
  end.

(** An input event on one of the two elements, with what its listener
    reads. *)
Inductive InputEvent :=
| SpaceCountInput (valueAsNumber : number)
| UseTabInput (checked : bool).

(** An event runs the listener that was added for it, if one was. *)
Definition fire (page : Page) (s : IndentSettings) (ev : InputEvent) : IndentSettings :=
  match ev with
  | SpaceCountInput v => if isInput (spaceInput page) then onSpaceInput v s else s
  | UseTabInput b => if isInput (tabCheckbox page) then onTabInput b s else s
  end.

(** The settings after the events, oldest first, from the initial ones. *)
Definition fireAll (page : Page) (events : list InputEvent) : IndentSettings :=
  fold_left (fire page) events defaultSettings.

(** The value the last space-count event of a page with the listener
    carried. *)
Fixpoint lastSpaceCount (events : list InputEvent) : option number :=
  match events with
  | [] => None
  | ev :: rest =>
      match lastSpaceCount rest, ev with
      | Some v, _ => Some v
      | None, SpaceCountInput v => Some v
      | None, UseTabInput _ => None
      end
  end.

(** The state of the checkbox at the last use-tab event. *)
Fixpoint lastUseTab (events : list InputEvent) : option bool :=
  match events with
  | [] => None
  | ev :: rest =>
      match lastUseTab rest, ev with
      | Some b, _ => Some b
      | None, UseTabInput b => Some b
      | None, SpaceCountInput _ => None
      end
  end.

(** An event that does not enter a count [repeat] rejects. *)
Definition validEvent {E : Engine} (ev : InputEvent) : Prop :=
  match ev with
  | SpaceCountInput v => invalidCount v = false
  | UseTabInput _ => True
  end.

(* ================================================================== *)
(** ** The editing framework, as the commands see it *)
(* ================================================================== *)

(** The members of [enterCommands], imported from prosemirror-commands. *)
Inductive BaseCommand :=
| newlineInCode
| createParagraphNear
| liftEmptyBlock
| splitBlock.

(** What main.ts uses of prosemirror-state and prosemirror-commands.

    A base command is given a state, a dispatch and a view; it acts only
    through the dispatch it is given, so its run is the transactions it hands
    to that dispatch, in order, and the boolean it returns. *)
Class ProseMirror := {
  EditorState : Type;
  Transaction : Type;
  EditorView : Type;
  (** what a real dispatch acts on (the view and the state it shows) *)
  Host : Type;
  (** [state.selection.from], [state.selection.to] *)
  selection_from : EditorState -> Z;
  selection_to : EditorState -> Z;
  (** [state.selection.$from.parent.textContent] *)
  selection_parent_textContent : EditorState -> jsstring;
  (** [state.tr] *)
  state_tr : EditorState -> Transaction;
  (** [tr.selection.from], [tr.selection.to] *)
  tr_selection_from : Transaction -> Z;
  tr_selection_to : Transaction -> Z;
  (** [tr.insertText(text, from, to?)] *)
  insertText : Transaction -> jsstring -> Z -> option Z -> Transaction;
  baseCommand : BaseCommand -> EditorState -> option EditorView -> list Transaction * bool;
}.

Section Commands.

Context {PM : ProseMirror}.

(** A dispatch function, by its effect on what it acts on. *)
Definition Dispatch := Transaction -> Host -> Host.

(** Everything a command can touch. [dispatched] and [invoked] are ghost
    logs: the transactions handed to the real dispatch and the base commands
    called, oldest first. *)
Record World := {
  settings : IndentSettings;
  host : Host;
  console : list (Z * Z);
  dispatched : list Transaction;
  invoked : list BaseCommand;
}.

Definition with_settings (s : IndentSettings) (w : World) : World :=
  {| settings := s; host := host w; console := console w;
     dispatched := dispatched w; invoked := invoked w |}.

(** Commands run in a state monad over [World] whose results are
    completions. *)
Definition M (A : Type) := World -> completion A * World.

Definition ret {A} (a : A) : M A := fun w => (Normal a, w).

Definition bind {A B} (m : M A) (k : A -> M B) : M B :=
  fun w =>
    match m w with
    | (Normal a, w') => k a w'
    | (Throw e, w') => (Throw e, w')
    end.

Definition lift {A} (c : completion A) : M A := fun w => (c, w).

Definition Command := EditorState -> option Dispatch -> option EditorView -> M bool.

(** [dispatch(tr)] on the dispatch the key-binding layer passed in. *)
Definition callDispatch (d : Dispatch) (tr : Transaction) : M unit :=
  fun w =>
    (Normal tt,
     {| settings := settings w; host := d tr (host w); console := console w;
        dispatched := dispatched w ++ [tr]; invoked := invoked w |}).

(** [console.log(from, to)] *)
Definition console_log (from to : Z) : M unit :=
  fun w =>
    (Normal tt,
     {| settings := settings w; host := host w; console := console w ++ [(from, to)];
        dispatched := dispatched w; invoked := invoked w |}).

Definition note_invoked (c : BaseCommand) (w : World) : World :=
  {| settings := settings w; host := host w; console := console w;
     dispatched := dispatched w; invoked := invoked w ++ [c] |}.

End Commands.

Notation "x <- m ;; k" := (bind m (fun x => k))
  (at level 61, m at next level, right associativity).
Notation "m ;;; k" := (bind m (fun _ => k))
  (at level 61, right associativity).

Section MainTs.

Context {engine : Engine} {PM : ProseMirror}.

(** Reading the module-level [settings] object. *)
Definition readSettings : M IndentSettings := fun w => (Normal (settings w), w).

(** [const tabCommand: Command = (state, dispatch) => ...] *)
Definition tabCommand : Command :=
  fun state dispatch _view =>
    let from := selection_from state in
    let to := selection_to state in
    s <- readSettings ;;
    text <- lift (getIndentText (useTab s) (spaceCount s)) ;;
    match dispatch with
    | Some d => callDispatch d (insertText (state_tr state) text from (Some to))
    | None => ret tt
    end ;;;
    ret true.

(** [const enterCommands: Command[]] *)
Definition enterCommands : list BaseCommand :=
  [newlineInCode; createParagraphNear; liftEmptyBlock; splitBlock].

(** [const customDispatch = (tr) => { resultTr = tr; }], on the local
    variable [resultTr] of [enterCommand]. *)
Definition customDispatch (tr : Transaction) (resultTr : option Transaction) : option Transaction :=
  Some tr.

(** [enterCommands[i](state, customDispatch, view)]: the command's calls of
    the dispatch it was given are calls of [customDispatch]. *)
Definition callFallback (c : BaseCommand) (state : EditorState) (view : option EditorView)
    (resultTr : option Transaction) (w : World) : bool * option Transaction * World :=
  let '(trs, ok) := baseCommand c state view in
  (ok, fold_left (fun r tr => customDispatch tr r) trs resultTr, note_invoked c w).

(** The loop
    [for (let i = 0; i < enterCommands.length; i++)
       if (enterCommands[i](state, customDispatch, view)) break;]
    over the commands from index [i] on. *)
Fixpoint tryCommands (cmds : list BaseCommand) (state : EditorState) (view : option EditorView)
    (resultTr : option Transaction) (w : World) : option Transaction * World :=
  match cmds with
  | [] => (resultTr, w)
  | c :: rest =>
      let '(ok, resultTr', w') := callFallback c state view resultTr w in
      if ok then (resultTr', w')
      else tryCommands rest state view resultTr' w'
  end.

(** [const enterCommand: Command = (state, dispatch, view) => ...] *)
Definition enterCommand : Command :=
  fun state dispatch view w =>
    let '(resultTr, w1) := tryCommands enterCommands state view None w in
    (match resultTr with
     | Some finalTr =>
         match dispatch with
         | Some d =>
             let line := selection_parent_textContent state in
             let from := tr_selection_from finalTr in
             let to := tr_selection_to finalTr in
             console_log from to ;;;
             callDispatch d (insertText finalTr (getExistingIndent line) to None)
         | None => ret tt
         end
     | None => ret tt
     end ;;;
     ret true) w1.

(** A base command succeeds on [state] when it returns true. *)
Definition succeeds (state : EditorState) (view : option EditorView) (c : BaseCommand) : bool :=
  snd (baseCommand c state view).

(** The part of the world the real dispatch can change, and its call log. *)
Definition untouched (w w' : World) : Prop :=
  settings w' = settings w /\ host w' = host w /\
  console w' = console w /\ dispatched w' = dispatched w.

(** The commands of a list that get called: those up to and including the
    first that succeeds. *)
Fixpoint tried (state : EditorState) (view : option EditorView) (cmds : list BaseCommand)
    : list BaseCommand :=
  match cmds with
  | [] => []
  | c :: rest => c :: (if succeeds state view c then [] else tried state view rest)
  end.

(** The transactions a base command hands to its dispatch. *)
Definition handed (state : EditorState) (view : option EditorView) (c : BaseCommand)
    : list Transaction :=
  fst (baseCommand c state view).

(** The key name ["Enter"]. *)
Definition Enter : jsstring := [69; 110; 116; 101; 114]%N.

(** [const baseKeymapMinusEnter = {...baseKeymap};
     baseKeymapMinusEnter["Enter"] = enterCommand;] *)
Definition baseKeymapMinusEnter (baseKeymap : object Command) : object Command :=
  set Enter enterCommand (spread baseKeymap).

End MainTs.

(* ================================================================== *)
(** ** A one-paragraph editor to run the commands on *)
(* ================================================================== *)

Module Plain.

(** The document is one paragraph; the state is its text and the two ends
    of the selection. *)
Record state := {
  text : jsstring;
  sel_from : Z;
  sel_to : Z;
}.

Record edit := {
  inserted : jsstring;
  edit_from : Z;
  edit_to : option Z;
}.

(** A transaction is the state it starts from, its selection and the
    [insertText] calls made on it. *)
Record transaction := {
  before : state;
  tr_from : Z;
  tr_to : Z;
  edits : list edit;
}.

Definition tr (s : state) : transaction :=
  {| before := s; tr_from := sel_from s; tr_to := sel_to s; edits := [] |}.

Definition insert (t : transaction) (s : jsstring) (from : Z) (to : option Z) : transaction :=
  {| before := before t; tr_from := tr_from t; tr_to := tr_to t;
     edits := edits t ++ [{| inserted := s; edit_from := from; edit_to := to |}] |}.

(** The transaction of a block split at the selection: the cursor moves to
    the start of the new block, two positions past the split. *)
Definition split (s : state) : transaction :=
  {| before := s; tr_from := sel_from s + 2; tr_to := sel_from s + 2; edits := [] |}.

(** A base command that applies ([applies c = true]) dispatches the split
    and returns true; one that does not returns false. *)
Definition command (applies : BaseCommand -> bool) (c : BaseCommand) (s : state)
    (_ : option unit) : list transaction * bool :=
  if applies c then ([split s], true) else ([], false).

Definition editor (applies : BaseCommand -> bool) : ProseMirror :=
  {| EditorState := state;
     Transaction := transaction;
     EditorView := unit;
     Host := list transaction;
     selection_from := sel_from;
     selection_to := sel_to;
     selection_parent_textContent := text;
     state_tr := tr;
     tr_selection_from := tr_from;
     tr_selection_to := tr_to;
     insertText := insert;
     baseCommand := command applies |}.

(** In a paragraph of text only [splitBlock] applies. *)
Definition onlySplit (c : BaseCommand) : bool :=
  match c with
  | splitBlock => true
  | _ => false
  end.

Definition nothingApplies (c : BaseCommand) : bool := false.

(** The view's dispatch: the transaction is applied, here recorded. *)
Definition apply (applies : BaseCommand -> bool) : @Dispatch (editor applies) :=
  fun t h => h ++ [t].

Definition world (applies : BaseCommand -> bool) (s : IndentSettings) : @World (editor applies) :=
  @Build_World (editor applies) s (@nil transaction) [] (@nil transaction) [].

(** The cursor at the end of a line. *)
Definition atEnd (line : jsstring) : state :=
  {| text := line; sel_from := 1 + Z.of_nat (length line);
     sel_to := 1 + Z.of_nat (length line) |}.

End Plain.

(** The commands on that editor, from the default settings and with a
    dispatch. *)
Module Run.

(** The line ["ab"] with both characters selected. *)
Definition ab : Plain.state :=
  {| Plain.text := [97; 98]%N; Plain.sel_from := 1; Plain.sel_to := 3 |}.

(** Two spaces, then ["x"], the cursor at the end of the line. *)
Definition indented : Plain.state := Plain.atEnd [SPACE; SPACE; 120%N].

(** A line of two spaces, the cursor at its end. *)
Definition blank : Plain.state := Plain.atEnd [SPACE; SPACE].

Definition start (applies : BaseCommand -> bool) : @World (Plain.editor applies) :=
  Plain.world applies defaultSettings.

Definition enter (applies : BaseCommand -> bool) (s : Plain.state) :=
  @enterCommand (Plain.editor applies) s (Some (Plain.apply applies)) None (start applies).

Definition tab (applies : BaseCommand -> bool) (s : Plain.state) :=
  @tabCommand V8 (Plain.editor applies) s (Some (Plain.apply applies)) None (start applies).

(** A page with both inputs. *)
Definition page : Page :=
  {| spaceInput := Some HTMLInputElement; tabCheckbox := Some HTMLInputElement |}.

(** Tabs chosen, over a space count of -1. *)
Definition tabsFromMinusOne : IndentSettings :=
  {| useTab := true; spaceCount := minus_one |}.

(** Four input events, oldest first. *)
Definition someEvents : list InputEvent :=
  [SpaceCountInput minus_half; UseTabInput true; SpaceCountInput two_and_a_half;
   UseTabInput false].

(** The key name ["Tab"]. *)
Definition Tab : jsstring := [84; 97; 98]%N.

(** A base keymap with a binding for Enter and one for another key. *)
Definition baseKeymap : object (@Command (Plain.editor Plain.onlySplit)) :=
  [(Enter, fun _ _ _ w => (Normal false, w)); (Tab, @tabCommand V8 _)].

End Run.

(* ================================================================== *)
(** ** getExistingIndent *)
(* ================================================================== *)

Lemma search_from_spec (s : jsstring) (i : Z) :
  search_from s i =
  if forallb isWhiteSpace s then -1
  else i + Z.of_nat (length (leadingWhitespace s)).
Proof.
  revert i. induction s as [|c s IH]; intros i; simpl.
  - reflexivity.
  - destruct (isWhiteSpace c); simpl.
    + rewrite IH. destruct (forallb isWhiteSpace s); lia.
    + lia.
Qed.

Lemma leadingWhitespace_prefix (s : jsstring) :
  firstn (length (leadingWhitespace s)) s = leadingWhitespace s.
Proof.
  induction s as [|c s IH]; simpl; [reflexivity|].
  destruct (isWhiteSpace c); simpl; [now rewrite IH | reflexivity].
Qed.

Lemma leadingWhitespace_length (s : jsstring) :
  (length (leadingWhitespace s) <= length s)%nat.
Proof.
  induction s as [|c s IH]; simpl; [lia|].
  destruct (isWhiteSpace c); simpl; lia.
Qed.

Lemma leadingWhitespace_blank (s : jsstring) :
  forallb isWhiteSpace s = true -> leadingWhitespace s = s.
Proof.
  induction s as [|c s IH]; simpl; [reflexivity|].
  destruct (isWhiteSpace c); simpl; [|discriminate].
  intros H. now rewrite IH.
Qed.

(** [s.slice(0, k)] for [0 <= k <= length]: the first [k] code units. *)
Lemma slice_prefix (s : jsstring) (k : nat) :
  (k <= length s)%nat -> slice s 0 (Z.of_nat k) = firstn k s.
Proof.
  intros Hk. unfold slice, substring. simpl.
  replace (Z.of_nat k <? 0) with false by (symmetry; apply Z.ltb_ge; lia).
  rewrite Z.min_l by lia.
  rewrite (Z.min_l (Z.of_nat k)) by lia.
  destruct (0 >=? Z.of_nat k) eqn:E.
  - apply Z.geb_le in E. assert (k = 0%nat) by lia. subst. reflexivity.
  - rewrite Z.sub_0_r, Nat2Z.id. reflexivity.
Qed.

Lemma firstn_removelast {A} (l : list A) :
  firstn (length l - 1) l = removelast l.
Proof.
  induction l as [|a l IH]; [reflexivity|].
  destruct l as [|b l]; [reflexivity|].
  replace (length (a :: b :: l) - 1)%nat with (S (length (b :: l) - 1))
    by (simpl length; lia).
  rewrite firstn_cons, IH. reflexivity.
Qed.

(** [s.slice(0, -1)]: everything but the last code unit. *)
Lemma slice_minus_one (s : jsstring) : slice s 0 (-1) = removelast s.
Proof.
  unfold slice, substring. simpl.
  rewrite Z.min_l by lia.
  destruct s as [|c s]; [reflexivity|].
  rewrite Z.max_l by (simpl length; lia).
  destruct (0 >=? Z.of_nat (length (c :: s)) + -1) eqn:E.
  - apply Z.geb_le in E. simpl length in E.
    destruct s; [reflexivity | simpl length in E; lia].
  - rewrite Z.sub_0_r.
    replace (Z.to_nat (Z.of_nat (length (c :: s)) + -1)) with (length (c :: s) - 1)%nat by lia.
    apply firstn_removelast.
Qed.

(** On a line with a non-whitespace code unit the function returns the
    leading whitespace. *)
Lemma getExistingIndent_nonblank (line : jsstring) :
  forallb isWhiteSpace line = false ->
  getExistingIndent line = leadingWhitespace line.
Proof.
  intros H. unfold getExistingIndent, search_nonspace.
  rewrite search_from_spec, H. simpl.
  rewrite slice_prefix by apply leadingWhitespace_length.
  apply leadingWhitespace_prefix.
Qed.

(** On a line of whitespace only, [search] answers [-1] and the slice drops
    the last code unit. *)
Lemma getExistingIndent_blank (line : jsstring) :
  forallb isWhiteSpace line = true ->
  getExistingIndent line = removelast line.
Proof.
  intros H. unfold getExistingIndent, search_nonspace.
  rewrite search_from_spec, H. apply slice_minus_one.
Qed.

(** C1 (the code departs from the claim). The claim: [getExistingIndent]
    returns the leading whitespace of the line, the entire line when it holds
    no non-whitespace character. On the two-space line the leading whitespace
    is the line itself, and the function returns a single space: [search]
    answers [-1] there and [slice(0, -1)] drops the last code unit. *)
Theorem getExistingIndent_two_spaces :
  forallb isWhiteSpace [SPACE; SPACE] = true /\
  leadingWhitespace [SPACE; SPACE] = [SPACE; SPACE] /\
  getExistingIndent [SPACE; SPACE] = [SPACE].
Proof. repeat split. Qed.

(** The two results agree exactly on the empty line and on the lines that
    hold a non-whitespace code unit. *)
Lemma getExistingIndent_agrees_iff (line : jsstring) :
  getExistingIndent line = leadingWhitespace line <->
  line = [] \/ forallb isWhiteSpace line = false.
Proof.
  split.
  - intros H. destruct (forallb isWhiteSpace line) eqn:E; [left | now right].
    rewrite getExistingIndent_blank, leadingWhitespace_blank in H by exact E.
    destruct line as [|c l]; [reflexivity|].
    apply (f_equal (@length _)) in H.
    assert (L : length (removelast (c :: l)) = (length (c :: l) - 1)%nat).
    { rewrite <- firstn_removelast, length_firstn. lia. }
    rewrite L in H. simpl in H. lia.
  - intros [-> | H]; [reflexivity | now apply getExistingIndent_nonblank].
Qed.

(** X1. On the empty line and on every line that holds a non-whitespace
    code unit, [getExistingIndent] returns the leading whitespace of the
    line. *)
Theorem getExistingIndent_leading_whitespace (line : jsstring) :
  line = [] \/ forallb isWhiteSpace line = false ->
  getExistingIndent line = leadingWhitespace line.
Proof. apply getExistingIndent_agrees_iff. Qed.

Lemma getExistingIndent_leading_whitespace_witness :
  forallb isWhiteSpace [SPACE; TAB; 120%N; SPACE] = false /\
  getExistingIndent [SPACE; TAB; 120%N; SPACE] = [SPACE; TAB].
Proof.
  split; [reflexivity|].
  apply (getExistingIndent_leading_whitespace [SPACE; TAB; 120%N; SPACE]).
  right. reflexivity.
Defined.

(* ================================================================== *)
(** ** getIndentText *)
(* ================================================================== *)

Lemma copies_length (c : char16) (k : nat) : length (copies k [c]) = k.
Proof. induction k; simpl; congruence. Qed.

Lemma copies_all (c : char16) (k : nat) : Forall (fun x => x = c) (copies k [c]).
Proof. induction k; simpl; constructor; auto. Qed.

(** The integer part of a number that is a non-negative integer is that
    integer. *)
Lemma ToIntegerOrInfinity_represents (x : number) (n : Z) :
  0 <= n -> represents x n -> ToIntegerOrInfinity x = Int n.
Proof.
  intros Hn. destruct x as [s| s | |s m e]; simpl; try contradiction.
  - intros ->. reflexivity.
  - unfold truncate. destruct (0 <=? e) eqn:E.
    + intros ->. reflexivity.
    + apply Z.leb_gt in E. intros H.
      assert (P : 0 < 2 ^ (- e)) by (apply Z.pow_pos_nonneg; lia).
      destruct s; unfold sign in *.
      * assert (0 <= n * 2 ^ (- e)) by (apply Z.mul_nonneg_nonneg; lia). lia.
      * rewrite Z.mul_1_l in H. rewrite H, Z.div_mul by lia. f_equal. lia.
Qed.

(** C4, as stated, fails: [2^53] is a non-negative integer, a string of
    that many spaces is longer than any engine's strings can be, and the call
    throws; on V8 it throws for [2^30] already. *)
Lemma getIndentText_too_long :
  is_number two_pow_53 = true /\
  represents two_pow_53 (2 ^ 53) /\
  (forall E : Engine, @getIndentText E false two_pow_53 = Throw RangeError) /\
  is_number two_pow_30 = true /\
  represents two_pow_30 (2 ^ 30) /\
  @getIndentText V8 false two_pow_30 = Throw RangeError.
Proof.
  split; [reflexivity|]. split; [reflexivity|]. split; [|repeat split].
  intros E. unfold getIndentText, JS.repeat.
  change (ToIntegerOrInfinity two_pow_53) with (Int 9007199254740992).
  change (9007199254740992 <? 0) with false.
  change (9007199254740992 =? 0) with false.
  change (Z.of_nat (length [SPACE])) with 1. cbv iota.
  pose proof (@maxStringLength_bound E) as B.
  change (2 ^ 53 - 1) with 9007199254740991 in B.
  replace (maxStringLength <? 9007199254740992 * 1) with true; [reflexivity|].
  symmetry. apply Z.ltb_lt. lia.
Qed.

(** C4 (amended). With [useTab] the result is the tab character; without
    it and for a [spaceCount] that is the non-negative integer [n], not
    above the length the engine's strings can have, it is a string of length
    [n] whose code units are all spaces. *)
Theorem getIndentText_spec {E : Engine} (useTab : bool) (spaceCount : number) (n : Z) :
  0 <= n ->
  (useTab = false -> n <= maxStringLength) ->
  represents spaceCount n ->
  exists text,
    getIndentText useTab spaceCount = Normal text /\
    if useTab then text = [TAB]
    else Z.of_nat (length text) = n /\ Forall (fun c => c = SPACE) text.
Proof.
  intros Hn Hmax Hx. destruct useTab; simpl.
  - exists [TAB]. split; reflexivity.
  - specialize (Hmax eq_refl).
    unfold JS.repeat. rewrite (ToIntegerOrInfinity_represents _ _ Hn Hx).
    replace (n <? 0) with false by (symmetry; apply Z.ltb_ge; exact Hn).
    destruct (n =? 0) eqn:Z0.
    + apply Z.eqb_eq in Z0. subst n. exists []. repeat split. constructor.
    + change (Z.of_nat (length [SPACE])) with 1.
      replace (maxStringLength <? n * 1) with false
        by (symmetry; apply Z.ltb_ge; lia).
      exists (copies (Z.to_nat n) [SPACE]). split; [reflexivity|]. split.
      * rewrite copies_length. lia.
      * apply copies_all.
Qed.

Lemma getIndentText_spec_witness :
  is_number four = true /\
  exists text,
    @getIndentText V8 false four = Normal text /\
    Z.of_nat (length text) = 4 /\ Forall (fun c => c = SPACE) text.
Proof.
  split; [reflexivity|].
  apply (@getIndentText_spec V8 false four 4);
    [lia | intros _; simpl; lia | reflexivity].
Defined.

(** With [useTab] the count is not looked at. *)
Lemma getIndentText_tab {E : Engine} (spaceCount : number) :
  getIndentText true spaceCount = Normal [TAB].
Proof. reflexivity. Qed.

(** C5, as stated, fails: [-1] is a number below zero for which the call
    throws instead of returning the empty string. *)
Lemma getIndentText_minus_one_throws :
  is_number minus_one = true /\
  SFltb minus_one zero = true /\
  (forall E : Engine, @getIndentText E false minus_one = Throw RangeError) /\
  (forall E : Engine, @getIndentText E false minus_one <> Normal []).
Proof. repeat split. discriminate. Qed.

(** C5 (amended). For NaN and for every number strictly between -1 and 1
    the call returns the empty string and does not throw. *)
Theorem getIndentText_empty {E : Engine} (spaceCount : number) :
  isNaN spaceCount = true \/ magnitude_below_one spaceCount ->
  getIndentText false spaceCount = Normal [].
Proof.
  unfold getIndentText, JS.repeat.
  destruct spaceCount as [s | s | | s m e]; simpl; intros [H | H];
    try discriminate; try contradiction; try reflexivity.
  destruct H as [He Hm]. unfold truncate.
  replace (0 <=? e) with false by (symmetry; apply Z.leb_gt; exact He).
  rewrite Z.div_small by lia. rewrite Z.mul_0_r. reflexivity.
Qed.

Lemma getIndentText_empty_witness :
  is_number minus_half = true /\
  SFltb minus_half zero = true /\
  @getIndentText V8 false minus_half = Normal [].
Proof.
  split; [reflexivity|]. split; [reflexivity|].
  apply (@getIndentText_empty V8 minus_half). right. simpl. split; [lia | reflexivity].
Defined.

(* ================================================================== *)
(** ** The settings listeners *)
(* ================================================================== *)

(** C10. After the space-count listener has run, [settings.spaceCount] is
    not NaN: a non-numeric (NaN) or zero value is stored as 0, every other
    value as it is; [useTab] is left alone. *)
Theorem onSpaceInput_spaceCount (valueAsNumber : number) (s : IndentSettings) :
  isNaN (spaceCount (onSpaceInput valueAsNumber s)) = false /\
  spaceCount (onSpaceInput valueAsNumber s) =
    (if isNaN valueAsNumber || isZero valueAsNumber then zero else valueAsNumber) /\
  useTab (onSpaceInput valueAsNumber s) = useTab s.
Proof.
  destruct valueAsNumber as [sg | sg | | sg m e]; repeat split.
Qed.

(** A negative value goes through the listener unchanged. *)
Lemma onSpaceInput_minus_one (s : IndentSettings) :
  spaceCount (onSpaceInput minus_one s) = minus_one.
Proof. reflexivity. Qed.

(* ================================================================== *)
(** ** tabCommand and enterCommand *)
(* ================================================================== *)

Section CommandFacts.

Context {engine : Engine} {PM : ProseMirror}.

Implicit Types (state : EditorState) (view : option EditorView)
  (dispatch : option Dispatch) (w : World) (c : BaseCommand).

Lemma untouched_refl w : untouched w w.
Proof. repeat split. Qed.

Lemma untouched_trans w1 w2 w3 : untouched w1 w2 -> untouched w2 w3 -> untouched w1 w3.
Proof. unfold untouched. intuition congruence. Qed.

Lemma last_cons {A} (a d : A) (l : list A) : last (a :: l) d = last l a.
Proof.
  revert a d. induction l as [|b l IH]; intros a d; [reflexivity|].
  change (last (a :: b :: l) d) with (last (b :: l) d). now rewrite !IH.
Qed.

(** What [customDispatch] leaves in [resultTr] after a command's calls: the
    last transaction it was called with, [resultTr] as it was without a
    call. *)
Lemma fold_customDispatch (trs : list Transaction) (r : option Transaction) :
  fold_left (fun r tr => customDispatch tr r) trs r = last (map Some trs) r.
Proof.
  revert r. induction trs as [|t trs IH]; intros r; [reflexivity|].
  simpl fold_left. rewrite IH. unfold customDispatch.
  simpl map. now rewrite last_cons.
Qed.

Lemma callFallback_spec c state view r w :
  callFallback c state view r w =
  (succeeds state view c,
   fold_left (fun r tr => customDispatch tr r) (fst (baseCommand c state view)) r,
   note_invoked c w).
Proof.
  unfold callFallback, succeeds. destruct (baseCommand c state view); reflexivity.
Qed.

(** The loop changes nothing but the log of invoked commands. *)
Lemma tryCommands_untouched (cmds : list BaseCommand) state view r w :
  untouched w (snd (tryCommands cmds state view r w)).
Proof.
  revert r w. induction cmds as [|c cmds IH]; intros r w; simpl.
  - apply untouched_refl.
  - rewrite callFallback_spec. destruct (succeeds state view c).
    + repeat split.
    + eapply untouched_trans; [|apply IH]. repeat split.
Qed.

(** The commands the loop invokes: those before the first success, and it. *)
Lemma tryCommands_invoked (cmds : list BaseCommand) state view r w :
  (exists pre c post,
      cmds = pre ++ c :: post /\
      Forall (fun c' => succeeds state view c' = false) pre /\
      succeeds state view c = true /\
      invoked (snd (tryCommands cmds state view r w)) = invoked w ++ pre ++ [c])
  \/
  (Forall (fun c' => succeeds state view c' = false) cmds /\
   invoked (snd (tryCommands cmds state view r w)) = invoked w ++ cmds).
Proof.
  revert r w. induction cmds as [|c cmds IH]; intros r w; simpl.
  - right. split; [constructor | now rewrite app_nil_r].
  - rewrite callFallback_spec. destruct (succeeds state view c) eqn:E.
    + left. exists [], c, cmds. repeat split; auto.
    + destruct (IH (fold_left (fun r tr => customDispatch tr r)
                      (fst (baseCommand c state view)) r) (note_invoked c w))
        as [(pre & c' & post & -> & Hpre & Hc & Hinv) | [Hall Hinv]].
      * left. exists (c :: pre), c', post. repeat split; auto.
        rewrite Hinv. simpl. rewrite <- app_assoc. reflexivity.
      * right. split; [constructor; assumption|].
        rewrite Hinv. simpl. rewrite <- app_assoc. reflexivity.
Qed.

(** The transaction the loop leaves in [resultTr] when the first command
    that succeeds has dispatched [tr] last. *)
Lemma tryCommands_captured (pre post : list BaseCommand) c (trs : list Transaction)
    (tr : Transaction) state view r w :
  Forall (fun c' => succeeds state view c' = false) pre ->
  baseCommand c state view = (trs ++ [tr], true) ->
  fst (tryCommands (pre ++ c :: post) state view r w) = Some tr.
Proof.
  intros Hpre Hc. revert r w.
  induction Hpre as [|c' pre Hc' Hpre IH]; intros r w; simpl.
  - rewrite callFallback_spec. unfold succeeds. rewrite Hc. simpl.
    rewrite fold_customDispatch, map_app. apply last_last.
  - rewrite callFallback_spec, Hc'. apply IH.
Qed.

(** What [enterCommand] does after the loop. *)
Lemma enterCommand_unfold state dispatch view w :
  enterCommand state dispatch view w =
  let '(resultTr, w1) := tryCommands enterCommands state view None w in
  match resultTr, dispatch with
  | Some finalTr, Some d =>
      let to := tr_selection_to finalTr in
      let tr := insertText finalTr
                  (getExistingIndent (selection_parent_textContent state)) to None in
      (Normal true,
       {| settings := settings w1; host := d tr (host w1);
          console := console w1 ++ [(tr_selection_from finalTr, to)];
          dispatched := dispatched w1 ++ [tr]; invoked := invoked w1 |})
  | _, _ => (Normal true, w1)
  end.
Proof.
  unfold enterCommand.
  destruct (tryCommands enterCommands state view None w) as [[finalTr|] w1];
    destruct dispatch as [d|]; reflexivity.
Qed.

(** With a captured transaction and a real dispatch, the dispatch is called
    once, on the captured transaction with the result of
    [getExistingIndent] on the line of the original selection inserted at
    the end of its selection. *)
Lemma enterCommand_dispatches state (d : Dispatch) view w (finalTr : Transaction) :
  fst (tryCommands enterCommands state view None w) = Some finalTr ->
  let tr := insertText finalTr
              (getExistingIndent (selection_parent_textContent state))
              (tr_selection_to finalTr) None in
  let w' := snd (enterCommand state (Some d) view w) in
  host w' = d tr (host w) /\ dispatched w' = dispatched w ++ [tr].
Proof.
  intros H. rewrite enterCommand_unfold.
  pose proof (tryCommands_untouched enterCommands state view None w) as U.
  destruct (tryCommands enterCommands state view None w) as [r w1].
  simpl in H. subst r. destruct U as (_ & Uh & _ & Ud). simpl in *.
  rewrite Uh, Ud. split; reflexivity.
Qed.

(** X2. When the first command of [enterCommands] that succeeds has
    dispatched [tr] last and a real dispatch is given, on a line that is
    empty or holds a non-whitespace code unit what is dispatched is [tr]
    with the leading whitespace of the line inserted at the end of its
    selection. *)
Theorem enterCommand_inserts_leading_whitespace
    (pre post : list BaseCommand) c (trs : list Transaction) (tr : Transaction)
    state (d : Dispatch) view w :
  enterCommands = pre ++ c :: post ->
  Forall (fun c' => succeeds state view c' = false) pre ->
  baseCommand c state view = (trs ++ [tr], true) ->
  selection_parent_textContent state = [] \/
  forallb isWhiteSpace (selection_parent_textContent state) = false ->
  let final := insertText tr (leadingWhitespace (selection_parent_textContent state))
                 (tr_selection_to tr) None in
  let w' := snd (enterCommand state (Some d) view w) in
  host w' = d final (host w) /\ dispatched w' = dispatched w ++ [final].
Proof.
  intros Hsplit Hpre Hc Hline.
  apply getExistingIndent_agrees_iff in Hline. rewrite <- Hline.
  apply enterCommand_dispatches. rewrite Hsplit.
  eapply tryCommands_captured; eassumption.
Qed.

(** C3. [enterCommand] invokes the commands in the order newlineInCode,
    createParagraphNear, liftEmptyBlock, splitBlock: either one of them
    succeeds, everything before it has failed, and the commands invoked are
    those up to and including it and none of those after it; or all four
    fail and all four are invoked. *)
Theorem enterCommand_order state dispatch view w :
  (exists pre c post,
      [newlineInCode; createParagraphNear; liftEmptyBlock; splitBlock] = pre ++ c :: post /\
      Forall (fun c' => succeeds state view c' = false) pre /\
      succeeds state view c = true /\
      invoked (snd (enterCommand state dispatch view w)) = invoked w ++ pre ++ [c] /\
      Forall (fun c' => ~ In c' (pre ++ [c])) post)
  \/
  (Forall (fun c' => succeeds state view c' = false)
     [newlineInCode; createParagraphNear; liftEmptyBlock; splitBlock] /\
   invoked (snd (enterCommand state dispatch view w)) =
     invoked w ++ [newlineInCode; createParagraphNear; liftEmptyBlock; splitBlock]).
Proof.
  assert (I : invoked (snd (enterCommand state dispatch view w)) =
              invoked (snd (tryCommands enterCommands state view None w))).
  { rewrite enterCommand_unfold.
    destruct (tryCommands enterCommands state view None w) as [[t|] w1];
      destruct dispatch; reflexivity. }
  rewrite I.
  destruct (tryCommands_invoked enterCommands state view None w)
    as [(pre & c & post & Hsplit & Hpre & Hc & Hinv) | H]; [left | right; exact H].
  exists pre, c, post. repeat split; auto.
  clear - Hsplit. unfold enterCommands in Hsplit.
  destruct pre as [|c1 [|c2 [|c3 [|c4 [|c5 pre]]]]]; simpl in Hsplit;
    inversion Hsplit; subst; simpl;
    repeat (constructor; [intros F; simpl in F; intuition discriminate|]);
    try constructor.
Qed.

(** C6. [enterCommand] returns true, whatever the state and the dispatch,
    also when every fallback command fails. *)
Theorem enterCommand_returns_true state dispatch view w :
  fst (enterCommand state dispatch view w) = Normal true.
Proof.
  rewrite enterCommand_unfold.
  destruct (tryCommands enterCommands state view None w) as [[t|] w1];
    destruct dispatch; reflexivity.
Qed.

(** C7. A call of a fallback command with the capturing dispatch records
    the last transaction it is handed and leaves the host and the log of
    real dispatch calls alone; so does the whole loop; and when the loop
    has captured nothing or no real dispatch was given, so does the whole
    of [enterCommand]. *)
Theorem enterCommand_capture_only state dispatch view w :
  (forall c r w0,
      let '(_, r', w') := callFallback c state view r w0 in
      untouched w0 w' /\
      r' = last (map Some (fst (baseCommand c state view))) r) /\
  (let '(r, w1) := tryCommands enterCommands state view None w in
   untouched w w1 /\
   (r = None \/ dispatch = None ->
    untouched w (snd (enterCommand state dispatch view w)))).
Proof.
  split.
  - intros c r w0. rewrite callFallback_spec. split; [repeat split|].
    apply fold_customDispatch.
  - pose proof (tryCommands_untouched enterCommands state view None w) as U.
    rewrite enterCommand_unfold.
    destruct (tryCommands enterCommands state view None w) as [r w1].
    simpl in U. split; [exact U|].
    intros [-> | ->]; [exact U|]. destruct r; exact U.
Qed.

(** What [tabCommand] does when the indent text is computed. *)
Lemma tabCommand_unfold state dispatch view w :
  tabCommand state dispatch view w =
  match getIndentText (useTab (settings w)) (spaceCount (settings w)) with
  | Throw e => (Throw e, w)
  | Normal text =>
      match dispatch with
      | Some d =>
          let tr := insertText (state_tr state) text
                      (selection_from state) (Some (selection_to state)) in
          (Normal true,
           {| settings := settings w; host := d tr (host w); console := console w;
              dispatched := dispatched w ++ [tr]; invoked := invoked w |})
      | None => (Normal true, w)
      end
  end.
Proof.
  unfold tabCommand, bind, readSettings, lift.
  destruct (getIndentText _ _); destruct dispatch; reflexivity.
Qed.

(** C8. When the settings give the indent text [text], [tabCommand] hands
    the dispatch one transaction: the state's transaction with [text]
    inserted over the range from the start to the end of the selection. *)
Theorem tabCommand_replaces_selection state (d : Dispatch) view w (text : jsstring) :
  getIndentText (useTab (settings w)) (spaceCount (settings w)) = Normal text ->
  let tr := insertText (state_tr state) text
              (selection_from state) (Some (selection_to state)) in
  let w' := snd (tabCommand state (Some d) view w) in
  host w' = d tr (host w) /\ dispatched w' = dispatched w ++ [tr].
Proof.
  intros H. rewrite tabCommand_unfold, H. split; reflexivity.
Qed.

(** X3. When the indent text is computed, [tabCommand] returns true, and
    without a dispatch it leaves the world as it was. *)
Theorem tabCommand_returns_true state dispatch view w (text : jsstring) :
  getIndentText (useTab (settings w)) (spaceCount (settings w)) = Normal text ->
  fst (tabCommand state dispatch view w) = Normal true /\
  snd (tabCommand state None view w) = w.
Proof.
  intros H. rewrite !tabCommand_unfold, H. destruct dispatch; split; reflexivity.
Qed.

(** C9 (the code departs from the claim). The claim: [tabCommand] returns
    true for every state and dispatch. Once the space-count listener has
    stored -1 over the default settings, [tabCommand] throws a RangeError,
    with or without a dispatch, and nothing is dispatched. *)
Theorem tabCommand_throws_after_minus_one state dispatch view w :
  let w0 := with_settings (onSpaceInput minus_one defaultSettings) w in
  tabCommand state dispatch view w0 = (Throw RangeError, w0).
Proof.
  simpl. rewrite tabCommand_unfold. reflexivity.
Qed.

End CommandFacts.

(* ================================================================== *)
(** ** The commands on the one-paragraph editor *)
(* ================================================================== *)

Example enter_indented :
  dispatched (snd (Run.enter Plain.onlySplit Run.indented)) =
  [Plain.insert (Plain.split Run.indented) [SPACE; SPACE] 6 None].
Proof. reflexivity. Qed.

Example enter_invokes_all_four :
  invoked (snd (Run.enter Plain.onlySplit Run.indented)) =
  [newlineInCode; createParagraphNear; liftEmptyBlock; splitBlock].
Proof. reflexivity. Qed.

Example enter_stops_at_first :
  invoked (snd (Run.enter (fun c => negb (Plain.onlySplit c)) Run.indented)) =
  [newlineInCode].
Proof. reflexivity. Qed.

Example enter_nothing_applies :
  Run.enter Plain.nothingApplies Run.indented =
  (Normal true,
   @Build_World (Plain.editor Plain.nothingApplies) defaultSettings [] [] []
     [newlineInCode; createParagraphNear; liftEmptyBlock; splitBlock]).
Proof. reflexivity. Qed.

Example tab_one_billion :
  is_number one_billion = true /\
  represents one_billion 1000000000 /\
  spaceCount (onSpaceInput one_billion defaultSettings) = one_billion /\
  fst (@tabCommand V8 (Plain.editor Plain.onlySplit) Run.ab
         (Some (Plain.apply Plain.onlySplit)) None
         (with_settings (onSpaceInput one_billion defaultSettings)
            (Run.start Plain.onlySplit))) = Throw RangeError.
Proof. repeat split. Qed.

Example tab_default :
  dispatched (snd (Run.tab Plain.onlySplit Run.ab)) =
  [Plain.insert (Plain.tr Run.ab) [SPACE; SPACE; SPACE; SPACE] 1 (Some 3)].
Proof. reflexivity. Qed.

(** C2 (the code departs from the claim). The claim: with a captured
    transaction and a real dispatch, [enterCommand] inserts the leading
    whitespace of the line the cursor was on at the end of the captured
    transaction's selection. On a line of two spaces, where [splitBlock]
    captures its transaction, the leading whitespace is the two spaces and
    the transaction dispatched inserts one. *)
Theorem enterCommand_blank_line :
  leadingWhitespace (Plain.text Run.blank) = [SPACE; SPACE] /\
  fst (Run.enter Plain.onlySplit Run.blank) = Normal true /\
  dispatched (snd (Run.enter Plain.onlySplit Run.blank)) =
    [Plain.insert (Plain.split Run.blank) [SPACE] 5 None].
Proof. repeat split. Qed.

Lemma tabCommand_replaces_selection_witness :
  @getIndentText V8 (useTab defaultSettings) (spaceCount defaultSettings) =
    Normal [SPACE; SPACE; SPACE; SPACE] /\
  (host (snd (Run.tab Plain.onlySplit Run.ab)) =
     [Plain.insert (Plain.tr Run.ab) [SPACE; SPACE; SPACE; SPACE] 1 (Some 3)] /\
   dispatched (snd (Run.tab Plain.onlySplit Run.ab)) =
     [Plain.insert (Plain.tr Run.ab) [SPACE; SPACE; SPACE; SPACE] 1 (Some 3)]).
Proof.
  split; [reflexivity|].
  apply (@tabCommand_replaces_selection V8 (Plain.editor Plain.onlySplit) Run.ab
           (Plain.apply Plain.onlySplit) None (Run.start Plain.onlySplit)
           [SPACE; SPACE; SPACE; SPACE]).
  reflexivity.
Defined.

Lemma enterCommand_inserts_leading_whitespace_witness :
  forallb isWhiteSpace (Plain.text Run.indented) = false /\
  (host (snd (Run.enter Plain.onlySplit Run.indented)) =
     [Plain.insert (Plain.split Run.indented) [SPACE; SPACE] 6 None] /\
   dispatched (snd (Run.enter Plain.onlySplit Run.indented)) =
     [Plain.insert (Plain.split Run.indented) [SPACE; SPACE] 6 None]).
Proof.
  split; [reflexivity|].
  apply (@enterCommand_inserts_leading_whitespace (Plain.editor Plain.onlySplit)
           [newlineInCode; createParagraphNear; liftEmptyBlock] [] splitBlock
           [] (Plain.split Run.indented) Run.indented
           (Plain.apply Plain.onlySplit) None (Run.start Plain.onlySplit)).
  - reflexivity.
  - repeat constructor.
  - reflexivity.
  - right. reflexivity.
Defined.

Lemma tabCommand_returns_true_witness :
  fst (Run.tab Plain.onlySplit Run.ab) = Normal true /\
  snd (@tabCommand V8 (Plain.editor Plain.onlySplit) Run.ab None None
         (Run.start Plain.onlySplit)) = Run.start Plain.onlySplit.
Proof.
  apply (@tabCommand_returns_true V8 (Plain.editor Plain.onlySplit) Run.ab
           (Some (Plain.apply Plain.onlySplit)) None (Run.start Plain.onlySplit)
           [SPACE; SPACE; SPACE; SPACE]).
  reflexivity.
Defined.

(* ================================================================== *)
(** ** More on getExistingIndent *)
(* ================================================================== *)

Lemma leadingWhitespace_whitespace (s : jsstring) :
  forallb isWhiteSpace (leadingWhitespace s) = true.
Proof.
  induction s as [|c s IH]; simpl; [reflexivity|].
  destruct (isWhiteSpace c) eqn:E; simpl; [now rewrite E | reflexivity].
Qed.

Lemma leadingWhitespace_app (ws : jsstring) (c : char16) (rest : jsstring) :
  forallb isWhiteSpace ws = true -> isWhiteSpace c = false ->
  leadingWhitespace (ws ++ c :: rest) = ws.
Proof.
  intros Hws Hc. induction ws as [|a ws IH]; simpl in *.
  - now rewrite Hc.
  - apply andb_prop in Hws as [Ha Hws]. rewrite Ha, IH by exact Hws. reflexivity.
Qed.

Lemma forallb_removelast {A} (p : A -> bool) (l : list A) :
  forallb p l = true -> forallb p (removelast l) = true.
Proof.
  induction l as [|a l IH]; [reflexivity|].
  intros H. apply andb_prop in H as [Ha Hl].
  destruct l as [|b l]; [reflexivity|].
  change (removelast (a :: b :: l)) with (a :: removelast (b :: l)).
  simpl forallb at 1. rewrite Ha. exact (IH Hl).
Qed.

Lemma removelast_is_prefix {A} (l : list A) : exists rest, l = removelast l ++ rest.
Proof.
  destruct l as [|a l]; [now exists []|].
  exists [last (a :: l) a]. apply app_removelast_last. discriminate.
Qed.

(** The indentation put in front of a line's text is what the function
    gives back. *)
Lemma getExistingIndent_app (ws : jsstring) (c : char16) (rest : jsstring) :
  forallb isWhiteSpace ws = true -> isWhiteSpace c = false ->
  getExistingIndent (ws ++ c :: rest) = ws.
Proof.
  intros Hws Hc. rewrite getExistingIndent_nonblank.
  - now apply leadingWhitespace_app.
  - rewrite forallb_app. simpl. rewrite Hc. now rewrite andb_false_r.
Qed.

(** X4. Whatever the line, the result of [getExistingIndent] is a prefix of
    the line and holds whitespace only. *)
Theorem getExistingIndent_prefix (line : jsstring) :
  (exists rest, line = getExistingIndent line ++ rest) /\
  forallb isWhiteSpace (getExistingIndent line) = true.
Proof.
  destruct (forallb isWhiteSpace line) eqn:E.
  - rewrite getExistingIndent_blank by exact E. split.
    + apply removelast_is_prefix.
    + now apply forallb_removelast.
  - rewrite getExistingIndent_nonblank by exact E. split.
    + exists (skipn (length (leadingWhitespace line)) line).
      pose proof (firstn_skipn (length (leadingWhitespace line)) line) as F.
      rewrite leadingWhitespace_prefix in F. symmetry. exact F.
    + apply leadingWhitespace_whitespace.
Qed.

(** X5. For a line made of whitespace [ws] followed by a non-whitespace
    code unit, [getExistingIndent] returns exactly [ws]; in particular the
    empty string when the line starts with a non-whitespace code unit. *)
Theorem getExistingIndent_recovers (ws : jsstring) (c : char16) (rest : jsstring) :
  forallb isWhiteSpace ws = true ->
  isWhiteSpace c = false ->
  getExistingIndent (ws ++ c :: rest) = ws /\ getExistingIndent (c :: rest) = [].
Proof.
  intros Hws Hc. split.
  - now apply getExistingIndent_app.
  - now apply (getExistingIndent_app [] c rest).
Qed.

Lemma getExistingIndent_recovers_witness :
  getExistingIndent ([TAB; SPACE] ++ 120%N :: [SPACE; 121%N]) = [TAB; SPACE] /\
  getExistingIndent (120%N :: [SPACE; 121%N]) = [].
Proof.
  apply (getExistingIndent_recovers [TAB; SPACE] 120%N [SPACE; 121%N]); reflexivity.
Defined.

(* ================================================================== *)
(** ** More on getIndentText *)
(* ================================================================== *)

Lemma copies_whitespace (k : nat) (s : jsstring) :
  forallb isWhiteSpace s = true -> forallb isWhiteSpace (copies k s) = true.
Proof.
  intros H. induction k as [|k IH]; simpl; [reflexivity|].
  rewrite forallb_app, H, IH. reflexivity.
Qed.

(** Every indent text is whitespace. *)
Lemma getIndentText_whitespace {E : Engine} (useTab : bool) (spaceCount : number)
    (text : jsstring) :
  getIndentText useTab spaceCount = Normal text -> forallb isWhiteSpace text = true.
Proof.
  unfold getIndentText, JS.repeat. destruct useTab.
  - intros H. injection H as <-. reflexivity.
  - destruct (ToIntegerOrInfinity spaceCount) as [n| |]; try discriminate.
    destruct (n <? 0); [discriminate|].
    destruct (n =? 0); [intros H; injection H as <-; reflexivity|].
    destruct (maxStringLength <? n * Z.of_nat (length [SPACE])); [discriminate|].
    intros H. injection H as <-. now apply copies_whitespace.
Qed.

Lemma truncate_pos_iff (m : positive) (e : Z) :
  0 < truncate m e <-> 0 <= e \/ 2 ^ (- e) <= Z.pos m.
Proof.
  unfold truncate. destruct (0 <=? e) eqn:E.
  - apply Z.leb_le in E. split; [now left|]. intros _.
    assert (0 < 2 ^ e) by (apply Z.pow_pos_nonneg; lia). nia.
  - apply Z.leb_gt in E.
    assert (P : 0 < 2 ^ (- e)) by (apply Z.pow_pos_nonneg; lia).
    split.
    + intros H. right.
      destruct (Z_lt_le_dec (Z.pos m) (2 ^ (- e))) as [L|L]; [|exact L].
      rewrite Z.div_small in H by lia. lia.
    + intros [H|H]; [lia|]. apply Z.div_str_pos. lia.
Qed.

Lemma truncate_nonneg (m : positive) (e : Z) : 0 <= truncate m e.
Proof.
  unfold truncate. destruct (0 <=? e) eqn:E.
  - apply Z.leb_le in E. assert (0 < 2 ^ e) by (apply Z.pow_pos_nonneg; lia). nia.
  - apply Z.leb_gt in E. apply Z.div_pos; [lia|]. apply Z.pow_pos_nonneg; lia.
Qed.

(** The integer part of [m * 2^e] is above a bound exactly when
    [m * 2^e >= bound + 1]. *)
Lemma truncate_above_iff (m : positive) (e bound : Z) :
  bound < truncate m e <->
  (if 0 <=? e then bound <? Z.pos m * 2 ^ e
   else (bound + 1) * 2 ^ (- e) <=? Z.pos m) = true.
Proof.
  unfold truncate. destruct (0 <=? e) eqn:He.
  - symmetry. apply Z.ltb_lt.
  - apply Z.leb_gt in He. rewrite Z.leb_le.
    assert (P : 0 < 2 ^ (- e)) by (apply Z.pow_pos_nonneg; lia).
    pose proof (Z.mul_div_le (Z.pos m) (2 ^ (- e)) P) as D.
    split.
    + intros H. nia.
    + intros H. assert (bound + 1 <= Z.pos m / 2 ^ (- e)); [|lia].
      apply Z.div_le_lower_bound; lia.
Qed.

(** [repeat] on a string of one code unit throws exactly on the counts that
    are at most -1, infinite, or above the length a string can have. *)
Lemma repeat_throws_iff {E : Engine} (c : char16) (count : number) :
  JS.repeat [c] count = Throw RangeError <-> invalidCount count = true.
Proof.
  unfold JS.repeat, invalidCount, ToIntegerOrInfinity.
  destruct count as [sg | sg | | sg m e].
  - split; discriminate.
  - destruct sg; split; reflexivity.
  - split; discriminate.
  - pose proof (truncate_pos_iff m e) as P. pose proof (truncate_nonneg m e) as Q.
    destruct sg; unfold sign.
    + destruct (-1 * truncate m e <? 0) eqn:L.
      * apply Z.ltb_lt in L. split; [intros _ | reflexivity].
        apply orb_true_iff. destruct (proj1 P ltac:(lia)) as [H|H];
          [left; now apply Z.leb_le | right; now apply Z.leb_le].
      * apply Z.ltb_ge in L. assert (T0 : truncate m e = 0) by lia.
        rewrite T0. change (-1 * 0 =? 0) with true. cbv iota.
        split; [discriminate|]. intros H.
        apply orb_true_iff in H. exfalso.
        assert (0 < truncate m e); [|lia].
        apply P. destruct H as [H|H]; [left | right]; now apply Z.leb_le.
    + rewrite Z.mul_1_l. change (Z.of_nat (length [c])) with 1.
      rewrite Z.mul_1_r.
      pose proof (truncate_above_iff m e maxStringLength) as G.
      pose proof maxStringLength_nonneg as NN.
      replace (truncate m e <? 0) with false by (symmetry; apply Z.ltb_ge; exact Q).
      destruct (truncate m e =? 0) eqn:Z0.
      * apply Z.eqb_eq in Z0. split; [discriminate|]. intros H.
        apply G in H. lia.
      * destruct (maxStringLength <? truncate m e) eqn:L.
        -- apply Z.ltb_lt in L. split; [intros _; now apply G | reflexivity].
        -- apply Z.ltb_ge in L. split; [discriminate|]. intros H.
           apply G in H. lia.
Qed.

Lemma repeat_cases {E : Engine} (s : jsstring) (count : number) :
  JS.repeat s count = Throw RangeError \/ exists text, JS.repeat s count = Normal text.
Proof.
  unfold JS.repeat. destruct (ToIntegerOrInfinity count) as [n| |]; auto.
  destruct (n <? 0); [auto|]. destruct (n =? 0); [eauto|].
  destruct (maxStringLength <? n * Z.of_nat (length s)); eauto.
Qed.

(** [repeat] of a space for a count with integer part [n] that a string
    can hold. *)
Lemma repeat_spaces {E : Engine} (count : number) (n : Z) :
  ToIntegerOrInfinity count = Int n -> 0 <= n -> n <= maxStringLength ->
  JS.repeat [SPACE] count = Normal (copies (Z.to_nat n) [SPACE]).
Proof.
  intros H N M. unfold JS.repeat. rewrite H.
  replace (n <? 0) with false by (symmetry; apply Z.ltb_ge; exact N).
  destruct (n =? 0) eqn:Z0.
  - apply Z.eqb_eq in Z0. subst n. reflexivity.
  - change (Z.of_nat (length [SPACE])) with 1.
    replace (maxStringLength <? n * 1) with false
      by (symmetry; apply Z.ltb_ge; lia).
    reflexivity.
Qed.

Lemma ToIntegerOrInfinity_integer_part (x : number) (n : Z) :
  integer_part x n -> ToIntegerOrInfinity x = Int n /\ 0 <= n.
Proof.
  unfold integer_part, ToIntegerOrInfinity.
  destruct x as [sg | sg | | sg m e]; try contradiction.
  - intros ->. split; [reflexivity | lia].
  - destruct sg; [contradiction|]. unfold sign, truncate.
    destruct (0 <=? e) eqn:He.
    + apply Z.leb_le in He. intros ->.
      assert (0 < 2 ^ e) by (apply Z.pow_pos_nonneg; lia).
      rewrite Z.mul_1_l. split; [reflexivity | nia].
    + apply Z.leb_gt in He. intros [L U].
      assert (P : 0 < 2 ^ (- e)) by (apply Z.pow_pos_nonneg; lia).
      assert (N : 0 <= n) by nia.
      assert (D : Z.pos m / 2 ^ (- e) = n).
      { symmetry. apply Z.div_unique with (r := Z.pos m - n * 2 ^ (- e)); lia. }
      rewrite D, Z.mul_1_l. split; [reflexivity | exact N].
Qed.

(** X6. [getIndentText] throws exactly when [useTab] is false and
    [spaceCount] is at most -1, infinite, or at least one more than the
    length the engine's strings can have; in every other case, NaN
    included, it returns a string. *)
Theorem getIndentText_throws_iff {E : Engine} (useTab : bool) (spaceCount : number) :
  (getIndentText useTab spaceCount = Throw RangeError <->
   useTab = false /\ invalidCount spaceCount = true) /\
  (getIndentText useTab spaceCount = Throw RangeError \/
   exists text, getIndentText useTab spaceCount = Normal text).
Proof.
  unfold getIndentText. destruct useTab.
  - split; [split; [discriminate | intros [H _]; discriminate] | right; eauto].
  - split; [|apply repeat_cases].
    rewrite repeat_throws_iff. intuition.
Qed.

(** X7. A [spaceCount] that is not an integer is cut to its integer part:
    for [n <= spaceCount < n + 1], with [n] not above the length the
    engine's strings can have, the result is [n] spaces. *)
Theorem getIndentText_truncates {E : Engine} (spaceCount : number) (n : Z) :
  integer_part spaceCount n ->
  n <= maxStringLength ->
  getIndentText false spaceCount = Normal (copies (Z.to_nat n) [SPACE]) /\
  Z.of_nat (length (copies (Z.to_nat n) [SPACE])) = n.
Proof.
  intros H M. apply ToIntegerOrInfinity_integer_part in H as [H N].
  unfold getIndentText. rewrite (repeat_spaces spaceCount n H N M).
  split; [reflexivity|]. rewrite copies_length. lia.
Qed.

Lemma getIndentText_truncates_witness :
  is_number two_and_a_half = true /\
  @getIndentText V8 false two_and_a_half = Normal [SPACE; SPACE].
Proof.
  split; [reflexivity|].
  apply (@getIndentText_truncates V8 two_and_a_half 2); simpl; lia.
Defined.

(** X8. What [getIndentText] returns, repeated for any number of levels
    and put in front of text that starts with a non-whitespace code unit,
    is what [getExistingIndent] reads back from the line. *)
Theorem getExistingIndent_of_indented {E : Engine} (useTab : bool) (spaceCount : number)
    (text : jsstring) (levels : nat) (c : char16) (rest : jsstring) :
  getIndentText useTab spaceCount = Normal text ->
  isWhiteSpace c = false ->
  getExistingIndent (copies levels text ++ c :: rest) = copies levels text.
Proof.
  intros H Hc. apply getExistingIndent_app; [|exact Hc].
  apply copies_whitespace. exact (getIndentText_whitespace _ _ _ H).
Qed.

Lemma getExistingIndent_of_indented_witness :
  @getIndentText V8 false four = Normal [SPACE; SPACE; SPACE; SPACE] /\
  getExistingIndent (copies 2 [SPACE; SPACE; SPACE; SPACE] ++ 120%N :: [SPACE]) =
    copies 2 [SPACE; SPACE; SPACE; SPACE].
Proof.
  split; [reflexivity|].
  apply (@getExistingIndent_of_indented V8 false four [SPACE; SPACE; SPACE; SPACE] 2
           120%N [SPACE]); reflexivity.
Defined.

(* ================================================================== *)
(** ** The settings under input events *)
(* ================================================================== *)

Lemma fold_fire_spaceCount (page : Page) (events : list InputEvent) (s : IndentSettings) :
  spaceCount (fold_left (fire page) events s) =
  if isInput (spaceInput page) then
    match lastSpaceCount events with
    | Some v => or_else v zero
    | None => spaceCount s
    end
  else spaceCount s.
Proof.
  revert s. induction events as [|ev events IH]; intros s; simpl.
  - now destruct (isInput (spaceInput page)).
  - rewrite IH. unfold fire.
    destruct (isInput (spaceInput page)), (isInput (tabCheckbox page)),
      (lastSpaceCount events), ev; reflexivity.
Qed.

Lemma fold_fire_useTab (page : Page) (events : list InputEvent) (s : IndentSettings) :
  useTab (fold_left (fire page) events s) =
  if isInput (tabCheckbox page) then
    match lastUseTab events with
    | Some b => b
    | None => useTab s
    end
  else useTab s.
Proof.
  revert s. induction events as [|ev events IH]; intros s; simpl.
  - now destruct (isInput (tabCheckbox page)).
  - rewrite IH. unfold fire.
    destruct (isInput (spaceInput page)), (isInput (tabCheckbox page)),
      (lastUseTab events), ev; reflexivity.
Qed.

Lemma or_else_zero_not_NaN (v : number) : isNaN (or_else v zero) = false.
Proof. now destruct v. Qed.

Lemma or_else_zero_valid {E : Engine} (v : number) :
  invalidCount v = false -> invalidCount (or_else v zero) = false.
Proof. destruct v as [sg | sg | | sg m e]; auto. Qed.

(** The initial count is valid when a string can hold four code units. *)
Lemma four_valid {E : Engine} : 4 <= maxStringLength -> invalidCount four = false.
Proof.
  intros H. unfold invalidCount, four.
  change (0 <=? -50) with false. cbv iota.
  change (2 ^ (- -50)) with 1125899906842624.
  apply Z.leb_gt. lia.
Qed.

Lemma lastSpaceCount_In (events : list InputEvent) (v : number) :
  lastSpaceCount events = Some v -> In (SpaceCountInput v) events.
Proof.
  induction events as [|ev events IH]; simpl; [discriminate|].
  destruct (lastSpaceCount events) as [v'|].
  - intros H. right. now apply IH.
  - destruct ev; [|discriminate]. intros H. injection H as ->. now left.
Qed.

(** The settings after valid events hold no count [repeat] rejects. *)
Lemma fireAll_valid {E : Engine} (page : Page) (events : list InputEvent) :
  4 <= maxStringLength ->
  Forall validEvent events ->
  invalidCount (spaceCount (fireAll page events)) = false.
Proof.
  intros M H. unfold fireAll. rewrite fold_fire_spaceCount.
  destruct (isInput (spaceInput page)); [|now apply four_valid].
  destruct (lastSpaceCount events) as [v|] eqn:L; [|now apply four_valid].
  apply or_else_zero_valid. apply lastSpaceCount_In in L.
  rewrite Forall_forall in H. exact (H _ L).
Qed.

(** X9. After any sequence of input events [settings.spaceCount] is decided
    by the last space-count event alone: its value, or 0 when that value is
    NaN or zero. It is the initial 4 when there was no such event, or when
    the space-count element is missing or not an input element, so that no
    listener was added. *)
Theorem fireAll_spaceCount (page : Page) (events : list InputEvent) :
  spaceCount (fireAll page events) =
  match isInput (spaceInput page), lastSpaceCount events with
  | true, Some v => if isNaN v || isZero v then zero else v
  | _, _ => four
  end.
Proof.
  unfold fireAll. rewrite fold_fire_spaceCount.
  destruct (isInput (spaceInput page)); [|reflexivity].
  destruct (lastSpaceCount events) as [v|]; [|reflexivity].
  now destruct v.
Qed.

(** X10. After any sequence of input events [settings.useTab] is the state
    of the checkbox at the last use-tab event; it is the initial false when
    there was none or when no listener was added. *)
Theorem fireAll_useTab (page : Page) (events : list InputEvent) :
  useTab (fireAll page events) =
  match isInput (tabCheckbox page), lastUseTab events with
  | true, Some b => b
  | _, _ => false
  end.
Proof.
  unfold fireAll. rewrite fold_fire_useTab.
  destruct (isInput (tabCheckbox page)); [|reflexivity].
  now destruct (lastUseTab events).
Qed.

(** X11. Whatever the page and the input events, [settings.spaceCount] is
    never NaN. *)
Theorem fireAll_never_NaN (page : Page) (events : list InputEvent) :
  isNaN (spaceCount (fireAll page events)) = false.
Proof.
  unfold fireAll. rewrite fold_fire_spaceCount.
  destruct (isInput (spaceInput page)); [|reflexivity].
  destruct (lastSpaceCount events); [apply or_else_zero_not_NaN | reflexivity].
Qed.

(* ================================================================== *)
(** ** The keymap *)
(* ================================================================== *)

Section Objects.

Context {V : Type}.

Implicit Types (o : object V) (k : jsstring) (v : V).

Lemma get_set_same k v o : get k (set k v o) = Some v.
Proof.
  induction o as [|[k' v'] o IH]; simpl.
  - destruct (key_eq_dec k k); congruence.
  - destruct (key_eq_dec k k') as [E|E]; simpl.
    + destruct (key_eq_dec k k'); congruence.
    + destruct (key_eq_dec k k'); congruence.
Qed.

Lemma get_set_other k k' v o : k' <> k -> get k' (set k v o) = get k' o.
Proof.
  intros N. induction o as [|[k1 v1] o IH]; simpl.
  - destruct (key_eq_dec k' k); congruence.
  - destruct (key_eq_dec k k1) as [E|E]; simpl.
    + subst k1. destruct (key_eq_dec k' k); congruence.
    + destruct (key_eq_dec k' k1); congruence.
Qed.

Lemma keys_set_present k v o : In k (keys o) -> keys (set k v o) = keys o.
Proof.
  induction o as [|[k1 v1] o IH]; simpl; [contradiction|].
  destruct (key_eq_dec k k1) as [E|E]; simpl; [reflexivity|].
  intros [H|H]; [congruence|]. f_equal. exact (IH H).
Qed.

Lemma set_absent k v o : ~ In k (keys o) -> set k v o = o ++ [(k, v)].
Proof.
  induction o as [|[k1 v1] o IH]; simpl; [reflexivity|].
  intros N. destruct (key_eq_dec k k1) as [E|E]; [intuition congruence|].
  f_equal. apply IH. intuition.
Qed.

Lemma fold_set_absent (o acc : object V) :
  NoDup (keys (acc ++ o)) ->
  fold_left (fun copy kv => set (fst kv) (snd kv) copy) o acc = acc ++ o.
Proof.
  revert acc. induction o as [|[k v] o IH]; intros acc H; simpl.
  - now rewrite app_nil_r.
  - assert (A : ~ In k (keys acc)).
    { unfold keys in *. rewrite map_app in H. simpl in H.
      apply NoDup_remove_2 in H. rewrite in_app_iff in H. tauto. }
    rewrite (set_absent k v acc A), IH; rewrite <- app_assoc; [reflexivity | exact H].
Qed.

(** The copy of an object has its properties, in its order. *)
Lemma spread_id o : NoDup (keys o) -> spread o = o.
Proof. intros H. apply (fold_set_absent o []). exact H. Qed.

End Objects.

Section KeymapFacts.

Context {PM : ProseMirror}.

(** X12. In [baseKeymapMinusEnter] the key Enter is bound to
    [enterCommand], which returns true in every state, and every other key
    has the binding [baseKeymap] gives it, or none. *)
Theorem baseKeymapMinusEnter_get (baseKeymap : object Command) :
  NoDup (keys baseKeymap) ->
  get Enter (baseKeymapMinusEnter baseKeymap) = Some enterCommand /\
  (forall state dispatch view w,
      fst (enterCommand state dispatch view w) = Normal true) /\
  (forall k, k <> Enter ->
      get k (baseKeymapMinusEnter baseKeymap) = get k baseKeymap).
Proof.
  intros H. unfold baseKeymapMinusEnter. rewrite (spread_id _ H).
  split; [apply get_set_same|]. split.
  - intros state dispatch view w. rewrite enterCommand_unfold.
    destruct (tryCommands enterCommands state view None w) as [[t|] w1];
      destruct dispatch; reflexivity.
  - intros k N. now apply get_set_other.
Qed.

(** X13. [baseKeymapMinusEnter] has the keys of [baseKeymap] in their
    order, with Enter added last when [baseKeymap] does not bind it; no key
    occurs twice. *)
Theorem baseKeymapMinusEnter_keys (baseKeymap : object Command) :
  NoDup (keys baseKeymap) ->
  (In Enter (keys baseKeymap) ->
   keys (baseKeymapMinusEnter baseKeymap) = keys baseKeymap) /\
  (~ In Enter (keys baseKeymap) ->
   keys (baseKeymapMinusEnter baseKeymap) = keys baseKeymap ++ [Enter]) /\
  NoDup (keys (baseKeymapMinusEnter baseKeymap)).
Proof.
  intros H. unfold baseKeymapMinusEnter. rewrite (spread_id _ H).
  assert (P : In Enter (keys baseKeymap) ->
              keys (set Enter enterCommand baseKeymap) = keys baseKeymap)
    by apply keys_set_present.
  assert (A : ~ In Enter (keys baseKeymap) ->
              keys (set Enter enterCommand baseKeymap) = keys baseKeymap ++ [Enter]).
  { intros N. rewrite set_absent by exact N. unfold keys. now rewrite map_app. }
  split; [exact P|]. split; [exact A|].
  destruct (in_dec key_eq_dec Enter (keys baseKeymap)) as [I|N].
  - now rewrite P.
  - rewrite A by exact N. apply NoDup_app; [exact H | repeat constructor; intros [] |].
    intros k Hk [<-|[]]. contradiction.
Qed.

End KeymapFacts.

Lemma baseKeymapMinusEnter_get_witness :
  NoDup (keys Run.baseKeymap) /\
  get Enter (baseKeymapMinusEnter Run.baseKeymap) = Some enterCommand /\
  (forall state dispatch view w,
      fst (@enterCommand (Plain.editor Plain.onlySplit) state dispatch view w) =
      Normal true) /\
  (forall k, k <> Enter ->
      get k (baseKeymapMinusEnter Run.baseKeymap) = get k Run.baseKeymap).
Proof.
  assert (H : NoDup (keys Run.baseKeymap)).
  { repeat constructor; simpl; intuition discriminate. }
  split; [exact H|].
  apply (@baseKeymapMinusEnter_get (Plain.editor Plain.onlySplit) Run.baseKeymap H).
Defined.

Lemma baseKeymapMinusEnter_keys_witness :
  NoDup (keys Run.baseKeymap) /\
  (In Enter (keys Run.baseKeymap) ->
   keys (baseKeymapMinusEnter Run.baseKeymap) = keys Run.baseKeymap) /\
  (~ In Enter (keys Run.baseKeymap) ->
   keys (baseKeymapMinusEnter Run.baseKeymap) = keys Run.baseKeymap ++ [Enter]) /\
  NoDup (keys (baseKeymapMinusEnter Run.baseKeymap)).
Proof.
  assert (H : NoDup (keys Run.baseKeymap)).
  { repeat constructor; simpl; intuition discriminate. }
  split; [exact H|].
  apply (@baseKeymapMinusEnter_keys (Plain.editor Plain.onlySplit) Run.baseKeymap H).
Defined.

(* ================================================================== *)
(** ** More on tabCommand and enterCommand *)
(* ================================================================== *)

Section MoreCommandFacts.

Context {engine : Engine} {PM : ProseMirror}.

Implicit Types (state : EditorState) (view : option EditorView)
  (dispatch : option Dispatch) (w : World) (c : BaseCommand).

Lemma last_app_default {A} (l1 l2 : list A) (d : A) :
  last (l1 ++ l2) d = last l2 (last l1 d).
Proof.
  revert d. induction l1 as [|a l1 IH]; intros d; [reflexivity|].
  change ((a :: l1) ++ l2) with (a :: (l1 ++ l2)).
  now rewrite !last_cons, IH.
Qed.

(** What the loop leaves in [resultTr]: the last transaction handed over by
    any of the commands it called. *)
Lemma tryCommands_result (cmds : list BaseCommand) state view
    (r : option Transaction) w :
  fst (tryCommands cmds state view r w) =
  last (map Some (flat_map (handed state view) (tried state view cmds))) r.
Proof.
  revert r w. induction cmds as [|c cmds IH]; intros r w; simpl; [reflexivity|].
  rewrite callFallback_spec, fold_customDispatch. fold (handed state view c).
  destruct (succeeds state view c).
  - simpl. now rewrite app_nil_r.
  - rewrite IH, map_app, last_app_default. reflexivity.
Qed.

Lemma tryCommands_with_settings (cmds : list BaseCommand) state view
    (r : option Transaction) w (s : IndentSettings) :
  tryCommands cmds state view r (with_settings s w) =
  (fst (tryCommands cmds state view r w),
   with_settings s (snd (tryCommands cmds state view r w))).
Proof.
  revert r w. induction cmds as [|c cmds IH]; intros r w; simpl; [reflexivity|].
  rewrite !callFallback_spec. destruct (succeeds state view c); [reflexivity|].
  apply (IH _ (note_invoked c w)).
Qed.

(** X14. With [useTab] set, [tabCommand] returns true and dispatches the
    state's transaction with a tab character inserted over the selection,
    whatever [spaceCount] holds. *)
Theorem tabCommand_useTab state (d : Dispatch) view w :
  useTab (settings w) = true ->
  let tr := insertText (state_tr state) [TAB]
              (selection_from state) (Some (selection_to state)) in
  fst (tabCommand state (Some d) view w) = Normal true /\
  host (snd (tabCommand state (Some d) view w)) = d tr (host w) /\
  dispatched (snd (tabCommand state (Some d) view w)) = dispatched w ++ [tr].
Proof.
  intros H. rewrite tabCommand_unfold, H. repeat split.
Qed.

(** X15. [tabCommand] throws, a RangeError, exactly when [useTab] is false
    and [spaceCount] is at most -1, infinite, or at least one more than the
    length the engine's strings can have, and it returns true in every other
    case; when it throws nothing has been dispatched or changed. *)
Theorem tabCommand_throws_iff state dispatch view w :
  (fst (tabCommand state dispatch view w) = Throw RangeError <->
   useTab (settings w) = false /\ invalidCount (spaceCount (settings w)) = true) /\
  (fst (tabCommand state dispatch view w) = Throw RangeError \/
   fst (tabCommand state dispatch view w) = Normal true) /\
  (fst (tabCommand state dispatch view w) = Throw RangeError ->
   snd (tabCommand state dispatch view w) = w).
Proof.
  rewrite tabCommand_unfold. unfold getIndentText.
  destruct (useTab (settings w)).
  - destruct dispatch; repeat split; auto; try discriminate;
      intros [H _]; discriminate.
  - pose proof (repeat_throws_iff SPACE (spaceCount (settings w))) as T.
    destruct (JS.repeat [SPACE] (spaceCount (settings w))) as [text|[]].
    + destruct dispatch; repeat split; auto; try discriminate;
        intros [_ H]; apply T in H; discriminate.
    + repeat split; auto. apply T. reflexivity.
Qed.

(** X16. On an engine whose strings can hold four code units, when no
    input event has entered a count that is at most -1, infinite, or above
    the length the engine's strings can have, [tabCommand] returns true
    under the settings the events leave, with or without a dispatch. *)
Theorem tabCommand_after_valid_events (page : Page) (events : list InputEvent)
    state dispatch view w :
  4 <= maxStringLength ->
  Forall validEvent events ->
  settings w = fireAll page events ->
  fst (tabCommand state dispatch view w) = Normal true.
Proof.
  intros M V S. pose proof (fireAll_valid page events M V) as I. rewrite <- S in I.
  rewrite tabCommand_unfold. unfold getIndentText.
  destruct (useTab (settings w)); [destruct dispatch; reflexivity|].
  pose proof (repeat_throws_iff SPACE (spaceCount (settings w))) as T.
  destruct (JS.repeat [SPACE] (spaceCount (settings w))) as [text|[]].
  - destruct dispatch; reflexivity.
  - rewrite (proj1 T eq_refl) in I. discriminate.
Qed.

(** X17. With a real dispatch, [enterCommand] dispatches at most once: on
    the last transaction that any command it called has handed to the
    capturing dispatch, whether or not that command then returned true, with
    the result of [getExistingIndent] inserted at the end of its selection;
    it logs that selection to the console. When no command it called has
    handed over a transaction, nothing is dispatched or logged. *)
Theorem enterCommand_dispatched state (d : Dispatch) view w :
  let w' := snd (enterCommand state (Some d) view w) in
  match last (map Some (flat_map (handed state view)
                          (tried state view enterCommands))) None with
  | Some finalTr =>
      let tr := insertText finalTr
                  (getExistingIndent (selection_parent_textContent state))
                  (tr_selection_to finalTr) None in
      dispatched w' = dispatched w ++ [tr] /\
      host w' = d tr (host w) /\
      console w' = console w ++ [(tr_selection_from finalTr, tr_selection_to finalTr)]
  | None =>
      dispatched w' = dispatched w /\ host w' = host w /\ console w' = console w
  end.
Proof.
  cbv zeta. rewrite enterCommand_unfold.
  rewrite <- (tryCommands_result enterCommands state view None w).
  pose proof (tryCommands_untouched enterCommands state view None w) as U.
  destruct (tryCommands enterCommands state view None w) as [[finalTr|] w1];
    destruct U as (_ & Uh & Uc & Ud); simpl in *.
  - rewrite Uh, Uc, Ud. repeat split.
  - repeat split; assumption.
Qed.

(** X18. [enterCommand] neither reads nor writes the settings: under other
    settings it returns the same value and leaves the same world, but for
    the settings, which stay as they are. *)
Theorem enterCommand_ignores_settings state dispatch view w (s : IndentSettings) :
  enterCommand state dispatch view (with_settings s w) =
  (fst (enterCommand state dispatch view w),
   with_settings s (snd (enterCommand state dispatch view w))) /\
  settings (snd (enterCommand state dispatch view w)) = settings w.
Proof.
  rewrite !enterCommand_unfold, tryCommands_with_settings.
  pose proof (tryCommands_untouched enterCommands state view None w) as U.
  destruct (tryCommands enterCommands state view None w) as [[finalTr|] w1];
    destruct U as (Us & _); simpl in *;
    destruct dispatch; split; try reflexivity; assumption.
Qed.

End MoreCommandFacts.

Lemma tabCommand_useTab_witness :
  @invalidCount V8 (spaceCount Run.tabsFromMinusOne) = true /\
  fst (@tabCommand V8 (Plain.editor Plain.onlySplit) Run.ab
         (Some (Plain.apply Plain.onlySplit)) None
         (Plain.world Plain.onlySplit Run.tabsFromMinusOne)) = Normal true /\
  host (snd (@tabCommand V8 (Plain.editor Plain.onlySplit) Run.ab
               (Some (Plain.apply Plain.onlySplit)) None
               (Plain.world Plain.onlySplit Run.tabsFromMinusOne))) =
    [Plain.insert (Plain.tr Run.ab) [TAB] 1 (Some 3)] /\
  dispatched (snd (@tabCommand V8 (Plain.editor Plain.onlySplit) Run.ab
                     (Some (Plain.apply Plain.onlySplit)) None
                     (Plain.world Plain.onlySplit Run.tabsFromMinusOne))) =
    [Plain.insert (Plain.tr Run.ab) [TAB] 1 (Some 3)].
Proof.
  split; [reflexivity|].
  apply (@tabCommand_useTab V8 (Plain.editor Plain.onlySplit) Run.ab
           (Plain.apply Plain.onlySplit) None
           (Plain.world Plain.onlySplit Run.tabsFromMinusOne)).
  reflexivity.
Defined.

Lemma tabCommand_after_valid_events_witness :
  fireAll Run.page Run.someEvents = {| useTab := false; spaceCount := two_and_a_half |} /\
  fst (@tabCommand V8 (Plain.editor Plain.onlySplit) Run.ab None None
         (Plain.world Plain.onlySplit (fireAll Run.page Run.someEvents))) = Normal true.
Proof.
  split; [reflexivity|].
  apply (@tabCommand_after_valid_events V8 (Plain.editor Plain.onlySplit)
           Run.page Run.someEvents Run.ab None None
           (Plain.world Plain.onlySplit (fireAll Run.page Run.someEvents))).
  - simpl. lia.
  - repeat constructor.
  - reflexivity.
Defined.
